(** * auth0-log-extension-tools: the run orchestrator and its checkpoint store

    A shallow embedding of [src/src/processor.js] (the [LogsProcessor]) and
    [src/src/Auth0Storage.js] (the checkpoint store).

    JavaScript values that the code stores, serialises or compares are modelled
    as JSON values: objects are association lists kept in property order, a
    missing property (JavaScript [undefined]) is [None].  Numbers are integers
    ([Z]); timestamps and counters in this code are integral milliseconds and
    counts.  Strings are [String.string], read as UTF-8 byte strings, so that
    the byte length of a serialised document is the length of its
    serialisation. *)

From Stdlib Require Import ZArith Strings.String Strings.Ascii Lists.List Bool Lia.
From Stdlib Require Import Numbers.DecimalString Sorting.Permutation.
Import ListNotations.

Open Scope string_scope.
Open Scope Z_scope.

(** ** JavaScript / JSON values *)

#[local] Set Warnings "-register-all".

Inductive json : Type :=
| JNull
| JBool (b : bool)
| JNum (n : Z)
| JStr (s : string)
| JArr (items : list json)
| JObj (fields : list (string * json)).

(** A plain JavaScript object: own enumerable properties in order. *)
Definition jobj := list (string * json).

(** [o[k]]: [None] is [undefined]. *)
Fixpoint get_prop (o : jobj) (k : string) : option json :=
  match o with
  | [] => None
  | (k', v) :: rest => if String.eqb k k' then Some v else get_prop rest k
  end.

(** [o[k] = v]: an existing property keeps its place, a new one is appended. *)
Fixpoint set_prop (k : string) (v : json) (o : jobj) : jobj :=
  match o with
  | [] => [(k, v)]
  | (k', v') :: rest =>
      if String.eqb k k' then (k', v) :: rest else (k', v') :: set_prop k v rest
  end.

(** JavaScript truthiness of a value that may be [undefined]. *)
Definition truthy (v : option json) : bool :=
  match v with
  | None => false
  | Some JNull => false
  | Some (JBool b) => b
  | Some (JNum n) => negb (n =? 0)
  | Some (JStr s) => match s with EmptyString => false | String _ _ => true end
  | Some (JArr _) => true
  | Some (JObj _) => true
  end.

(** [a || b] on possibly-[undefined] operands. *)
Definition js_or (a b : option json) : option json :=
  if truthy a then a else b.

(** ** [JSON.stringify] and [Buffer.byteLength(_, 'utf8')] *)

Definition Z_to_dec (n : Z) : string := NilEmpty.string_of_int (Z.to_int n).

Definition dquote : string := String (ascii_of_nat 34) EmptyString.
Definition bslash : string := String (ascii_of_nat 92) EmptyString.

Definition hex_digit (n : nat) : ascii :=
  ascii_of_nat (if Nat.ltb n 10 then 48 + n else 87 + n).

(** JSON string escaping: quote, backslash and the control characters
    below 0x20; every other byte (including the bytes of multi-byte UTF-8
    sequences) is written as it is. *)
Fixpoint escape (s : string) : string :=
  match s with
  | EmptyString => EmptyString
  | String c rest =>
      let n := nat_of_ascii c in
      let e :=
        if Nat.eqb n 34 then bslash ++ dquote
        else if Nat.eqb n 92 then bslash ++ bslash
        else if Nat.eqb n 8 then "\b"
        else if Nat.eqb n 12 then "\f"
        else if Nat.eqb n 10 then "\n"
        else if Nat.eqb n 13 then "\r"
        else if Nat.eqb n 9 then "\t"
        else if Nat.ltb n 32 then
          "\u00" ++ String (hex_digit (Nat.div n 16)) (String (hex_digit (Nat.modulo n 16)) EmptyString)
        else String c EmptyString in
      e ++ escape rest
  end.

Definition quote (s : string) : string := dquote ++ escape s ++ dquote.

Fixpoint join (sep : string) (l : list string) : string :=
  match l with
  | [] => EmptyString
  | [x] => x
  | x :: rest => x ++ sep ++ join sep rest
  end.

Fixpoint stringify (v : json) : string :=
  match v with
  | JNull => "null"
  | JBool true => "true"
  | JBool false => "false"
  | JNum n => Z_to_dec n
  | JStr s => quote s
  | JArr items => "[" ++ join "," (map stringify items) ++ "]"
  | JObj fields =>
      "{" ++ join "," (map (fun '(k, x) => quote k ++ ":" ++ stringify x) fields) ++ "}"
  end.

(** [Buffer.byteLength(JSON.stringify(o), 'utf8')] for an object [o]. *)
Definition byteLength_json (o : jobj) : Z := Z.of_nat (String.length (stringify (JObj o))).


(** [a || null]. *)
Definition js_or_null (a : option json) : json :=
  match a with
  | Some x => if truthy a then x else JNull
  | None => JNull
  end.

(** [String(v)], as used by string concatenation. *)
Fixpoint js_to_string (v : json) : string :=
  match v with
  | JNull => "null"
  | JBool true => "true"
  | JBool false => "false"
  | JNum n => Z_to_dec n
  | JStr s => s
  | JArr items =>
      join "," (map (fun x => match x with JNull => EmptyString | _ => js_to_string x end) items)
  | JObj _ => "[object Object]"
  end.

(** ** Auth0Storage.js *)

(** The document store behind the checkpoint store holds one document, or
    nothing ([read()] resolves to [undefined]). *)
Definition store := option jobj.

Record Auth0Storage := { limit : Z }.

(** [new Auth0Storage(storage, limit)]: [limit] defaults to 400 (KiB). *)
Definition Auth0Storage_new (lim : option Z) : Auth0Storage :=
  {| limit := match lim with None => 400 | Some l => l end |}.

(** [getCheckpoint(startFrom)], applied to the document [read()] yields. *)
Definition getCheckpoint (data : store) (startFrom : option json) : json :=
  match data with
  | None => js_or_null startFrom
  | Some d => js_or_null (js_or (get_prop d "checkpointId") startFrom)
  end.

(** [done(status, checkpoint)], applied to the document [read()] yields.
    On success it gives the document handed to [write] and the [status]
    object as mutated in place ([status.checkpoint = checkpoint]); [None] is
    a rejected promise: [data] is [undefined] ([JSON.stringify(undefined)] is
    [undefined], rejected by [Buffer.byteLength], and [data.logs] throws), or
    [data.logs] is truthy but not an array ([splice]/[push] are not
    functions). *)
Definition done (stg : Auth0Storage) (data : store) (status : jobj) (checkpoint : json)
  : option (jobj * jobj) :=
  match data with
  | None => None
  | Some d =>
      let storageSize := byteLength_json d in
      let d1 := if truthy (get_prop d "logs") then d else set_prop "logs" (JArr []) d in
      match get_prop d1 "logs" with
      | Some (JArr logs) =>
          let logs1 :=
            if (limit stg * 1024 <=? storageSize) && negb (Nat.eqb (List.length logs) 0)
            then skipn 5 logs (* data.logs.splice(0, 5) *)
            else logs in
          let status1 := set_prop "checkpoint" checkpoint status in
          let d2 := set_prop "logs" (JArr (logs1 ++ [JObj status1])%list) d1 in
          Some (set_prop "checkpointId" checkpoint d2, status1)
      | _ => None
      end
  end.

(** ** processor.js: configuration *)

(** [_.assign(target, src)]: own properties of [src] copied in order. *)
Definition assign (target src : jobj) : jobj :=
  fold_left (fun o '(k, v) => set_prop k v o) src target.

Definition processor_defaults : jobj :=
  [("batchSize", JNum 100); ("maxRetries", JNum 5); ("maxRunTimeSeconds", JNum 20)].

(** [new LogsProcessor(storageContext, options)]: [this.options], or [None]
    for the [ArgumentError] thrown on a [null]/[undefined] options object. *)
Definition LogsProcessor_options (options : option jobj) : option jobj :=
  match options with
  | None => None
  | Some o => Some (assign (assign [] o) processor_defaults)
  end.

Record run_config := {
  batchSize : option json;
  maxRetries : option json;
  maxRunTimeSeconds : option json
}.

(** The values [run()] reads from [self.options]. *)
Definition config_of (opts : jobj) : run_config :=
  {| batchSize := get_prop opts "batchSize";
     maxRetries := get_prop opts "maxRetries";
     maxRunTimeSeconds := get_prop opts "maxRunTimeSeconds" |}.

(** [hasTimeLeft(start)] with [new Date().getTime()] read as [now]. *)
Definition hasTimeLeft (maxRunTimeSeconds start now : Z) : bool :=
  now <=? (start + maxRunTimeSeconds) * 1000.

(** ** processor.js: [getLogFilter] *)

(** The [logTypes] module ([./logTypes]) is a table from log type name to
    an object carrying its [level]. *)
Definition log_type_table := list (string * jobj).

(** [_.filter(object, pred)]: the array of the values satisfying [pred]. *)
Definition lodash_filter_obj (tbl : log_type_table) (pred : jobj -> bool) : list jobj :=
  map snd (filter (fun kv => pred (snd kv)) tbl).

(** [_.keys(array)]: the indices of the array, as strings. *)
Definition lodash_keys_array {A} (l : list A) : list string :=
  map (fun i => Z_to_dec (Z.of_nat i)) (seq 0 (List.length l)).

(** [_.uniq]: first occurrences, in order. *)
Definition lodash_uniq (l : list string) : list string :=
  fold_left (fun acc x => if existsb (String.eqb x) acc then acc else (acc ++ [x])%list) l [].

(** [type.level >= options.logLevel]. *)
Definition level_at_least (logLevel : Z) (type : jobj) : bool :=
  match get_prop type "level" with
  | Some (JNum l) => logLevel <=? l
  | _ => false
  end.

(** [getLogFilter(options)], with [options.logTypes] and [options.logLevel]
    ([None] is [undefined]). *)
Definition getLogFilter (logTypes : log_type_table)
    (opt_logTypes : option (list string)) (opt_logLevel : option Z) : list string :=
  let types := match opt_logTypes with Some l => l | None => [] end in
  let types :=
    match opt_logLevel with
    | Some lv =>
        if negb (lv =? 0)
        then (types ++ lodash_keys_array (lodash_filter_obj logTypes (level_at_least lv)))%list
        else types
    | None => types
    end in
  lodash_uniq types.

(** ** processor.js: [getNextLimit] *)

Definition getNextLimit (batchSize logsBatch_length : Z) : Z :=
  let limit := batchSize - logsBatch_length in
  if 100 <? limit then 100 else limit.

(** ** processor.js: [run(handler)] *)

(** How a run's promise settles: resolved with [{status, checkpoint}],
    rejected with [error], or rejected by the checkpoint store's own error
    ([.catch(reject)]). *)
Inductive run_result :=
| Resolved (status : jobj) (checkpoint : json)
| Rejected (error : json)
| StoreFailed.

(** What [run] reads from the log stream: [stream.status],
    [stream.previousCheckpoint], [stream.lastCheckpoint]. *)
Record stream_view := {
  stream_status : jobj;
  previousCheckpoint : json;
  lastCheckpoint : json
}.

(** The two ways [retryProcess] continues. *)
Inductive retry_step :=
| RetryRedeliver (retries : Z)                   (* retries += 1; handler.onLogsReceived(logsBatch, ...) *)
| RetryGiveUp (error : json) (checkpoint : json).  (* runFailed(error, stream.status, checkpoint) *)

(** Where the delivery of one batch leaves the run: the handler accepted it
    (with the run's retry counter), the handler has not answered yet, or the
    run concluded. *)
Inductive batch_outcome :=
| BatchAccepted (retries : Z)
| BatchPending (retries : Z)
| RunConcluded (r : run_result).

Record delivery := {
  deliveries : list (list json);  (* the batches handed to onLogsReceived, in order *)
  final_store : store;
  outcome : batch_outcome
}.

(** The data handler's next move once a batch is accepted. *)
Inductive next_action :=
| StreamDone
| BatchSavedNext (limit : Z).

Definition week : Z := 604800000.

Definition warning_prefix : string :=
  "Logs are outdated more than for week. Last processed log has date is ".

(** [status.logsProcessed > 0] (the stream keeps a number there). *)
Definition logsProcessed_pos (status : jobj) : bool :=
  match get_prop status "logsProcessed" with
  | Some (JNum n) => 0 <? n
  | Some (JBool b) => b
  | _ => false
  end.

(** The skip-range error built when retries are exhausted. *)
Definition skip_error (previousCheckpoint lastCheckpoint : json) (maxRetries : Z) (err : json) : json :=
  JArr [JStr ("Skipping logs from " ++ js_to_string previousCheckpoint ++ " to " ++
              js_to_string lastCheckpoint ++ " after " ++ Z_to_dec maxRetries ++ " retries.");
        err].

Section Run.

(** [String(new Date(ms))]: host-dependent date rendering. *)
Variable date_string : Z -> string.
(** [self.storage] *)
Variable stg : Auth0Storage.
(** [self.options.maxRetries], [self.options.maxRunTimeSeconds] *)
Variables maxRetries maxRunTimeSeconds : Z.
(** [start = new Date().getTime()] at the beginning of the run. *)
Variable start : Z.

(** [runFailed(error, status, checkpoint)] *)
Definition runFailed (error : json) (status : jobj) (checkpoint : json) (s : store)
  : store * run_result :=
  let status1 := set_prop "error" error status in
  match done stg s status1 checkpoint with
  | Some (d, _) => (Some d, Rejected error)
  | None => (s, StoreFailed)
  end.

(** [runSuccess(status, checkpoint)], [now] being [new Date().getTime()]. *)
Definition runSuccess (status : jobj) (checkpoint : json) (lastLogDate now : Z) (s : store)
  : store * run_result :=
  if logsProcessed_pos status then
    let timeDiff := now - lastLogDate in
    let status1 :=
      if week <=? timeDiff
      then set_prop "warning" (JStr (warning_prefix ++ date_string lastLogDate)) status
      else status in
    match done stg s status1 checkpoint with
    | Some (d, status2) => (Some d, Resolved status2 checkpoint)
    | None => (s, StoreFailed)
    end
  else (s, Resolved status checkpoint).

(** [retryProcess(err, stream, handleError)], [now] being the clock read by
    [hasTimeLeft(start)]; [retries] is the run's counter. *)
Definition retryProcess (now retries : Z) (err : json) (sv : stream_view) : retry_step :=
  if negb (hasTimeLeft maxRunTimeSeconds start now) then RetryGiveUp err (previousCheckpoint sv)
  else if retries <? maxRetries then RetryRedeliver (retries + 1)
  else RetryGiveUp (skip_error (previousCheckpoint sv) (lastCheckpoint sv) maxRetries err)
                   (lastCheckpoint sv).

(** [handler.onLogsReceived(logsBatch, processComplete)] and the
    [processComplete] / [retryProcess] chain that follows, for one batch.
    Each answer of the handler is the argument it passes to the callback
    ([None] for no argument) with the clock reading [hasTimeLeft] sees if
    that answer is an error. *)
Fixpoint deliver (sv : stream_view) (logsBatch : list json) (s : store)
    (answers : list (option json * Z)) (retries : Z) : delivery :=
  match answers with
  | [] => {| deliveries := [logsBatch]; final_store := s; outcome := BatchPending retries |}
  | (arg, now) :: rest =>
      if negb (truthy arg)
      then {| deliveries := [logsBatch]; final_store := s; outcome := BatchAccepted retries |}
      else
        let err := match arg with Some e => e | None => JNull end in
        match retryProcess now retries err sv with
        | RetryGiveUp e cp =>
            let '(s', r) := runFailed e (stream_status sv) cp s in
            {| deliveries := [logsBatch]; final_store := s'; outcome := RunConcluded r |}
        | RetryRedeliver retries' =>
            let d := deliver sv logsBatch s rest retries' in
            {| deliveries := logsBatch :: deliveries d; final_store := final_store d;
               outcome := outcome d |}
        end
  end.

(** The success branch of the data handler's [processComplete]: the batch
    is cleared, then the stream is ended or acknowledged and asked for more.
    The retry counter is not touched. *)
Definition data_batch_accepted (batchSize now : Z) : list json * next_action :=
  ([], if negb (hasTimeLeft maxRunTimeSeconds start now) then StreamDone
       else BatchSavedNext (getNextLimit batchSize 0)).

End Run.

(** What the data handler does after appending a page: ask for another
    page of at most [limit] records, or hand the batch to the handler. *)
Inductive data_step :=
| RequestNext (limit : Z)  (* stream.next(getNextLimit()) *)
| DeliverBatch.            (* handler.onLogsReceived(logsBatch, processComplete) *)

Section RunEvents.

(** [new Date(x).getTime()] on a record's [date] ([None] is [undefined]). *)
Variable parse_date : option json -> Z.
Variable date_string : Z -> string.
Variable stg : Auth0Storage.
Variables maxRetries maxRunTimeSeconds start : Z.
(** [self.options.batchSize] *)
Variable batchSize : Z.

(** [stream.on('data', logs => ...)] up to its decision: the new
    [logsBatch], the new [lastLogDate], and the next move. *)
Definition on_data (logsBatch : list json) (lastLogDate : Z) (logs : list jobj)
  : list json * Z * data_step :=
  let logsBatch' := (logsBatch ++ map JObj logs)%list in
  let lastLogDate' :=
    match rev logs with
    | r :: _ => parse_date (get_prop r "date")
    | [] => lastLogDate
    end in
  (logsBatch', lastLogDate',
   if Z.of_nat (List.length logsBatch') <? batchSize
   then RequestNext (getNextLimit batchSize (Z.of_nat (List.length logsBatch')))
   else DeliverBatch).



End RunEvents.

(** ** Spec-side readings used in the statements *)

(** The [checkpointId] of the persisted document, if there is one. *)
Definition doc_checkpointId (data : store) : option json :=
  match data with
  | None => None
  | Some d => get_prop d "checkpointId"
  end.

(** The first present (non-empty) value of a priority list, else [null]. *)
Fixpoint first_present (l : list (option json)) : json :=
  match l with
  | [] => JNull
  | Some v :: rest => if truthy (Some v) then v else first_present rest
  | None :: rest => first_present rest
  end.

(** The run-status sequence of a stored document: absent (or empty-valued)
    reads as the empty sequence. *)
Definition logs_of (d : jobj) : option (list json) :=
  if truthy (get_prop d "logs") then
    match get_prop d "logs" with
    | Some (JArr l) => Some l
    | _ => None
    end
  else Some [].

(** ** Property lemmas *)

Lemma get_set_same : forall o k v, get_prop (set_prop k v o) k = Some v.
Proof.
  induction o as [|[k' v'] o IH]; intros k v; simpl.
  - rewrite String.eqb_refl. reflexivity.
  - destruct (String.eqb k k') eqn:E; simpl.
    + rewrite E. reflexivity.
    + rewrite E. apply IH.
Qed.

Lemma get_set_other : forall o k k' v,
  k <> k' -> get_prop (set_prop k v o) k' = get_prop o k'.
Proof.
  induction o as [|[k0 v0] o IH]; intros k k' v Hne; simpl.
  - destruct (String.eqb k' k) eqn:E; [|reflexivity].
    apply String.eqb_eq in E. congruence.
  - destruct (String.eqb k k0) eqn:E; simpl.
    + apply String.eqb_eq in E. subst k0.
      destruct (String.eqb k' k) eqn:E'; [|reflexivity].
      apply String.eqb_eq in E'. congruence.
    + destruct (String.eqb k' k0); [reflexivity|]. apply IH; assumption.
Qed.

Ltac props_ne :=
  repeat first [rewrite get_set_same | rewrite get_set_other by discriminate].

(** ** Configuration *)

(** C1 (code_bug): whatever options object the caller passes, the
    [batchSize], [maxRetries] and [maxRunTimeSeconds] the processor keeps are
    100, 5 and 20: [_.assign({}, options, defaults)] copies the defaults last,
    over the caller's values. *)
Theorem LogsProcessor_options_override_caller : forall o,
  option_map config_of (LogsProcessor_options (Some o)) =
  Some {| batchSize := Some (JNum 100); maxRetries := Some (JNum 5);
          maxRunTimeSeconds := Some (JNum 20) |}.
Proof.
  intros o. unfold LogsProcessor_options, config_of, assign. simpl.
  props_ne. reflexivity.
Qed.

(** ** Log filter *)

(** C2 (code_bug): with [logTypes = ["a"]], [logLevel = 2] and the table
    [{a: {level: 1}, b: {level: 2}, c: {level: 3}}], [getLogFilter] yields
    [["a", "0", "1"]]: [_.filter] over the table gives an array of the
    matching entries, whose [_.keys] are array indices, not type names. *)
Theorem getLogFilter_example_indices :
  getLogFilter [("a", [("level", JNum 1)]); ("b", [("level", JNum 2)]); ("c", [("level", JNum 3)])]
               (Some ["a"]) (Some 2) = ["a"; "0"; "1"].
Proof. reflexivity. Qed.

(** ** Page size *)

(** C10: [getNextLimit] is [min(100, batchSize - logsBatch.length)]; so it
    never exceeds 100 nor the room left in the batch. *)
Theorem getNextLimit_min : forall batchSize len,
  getNextLimit batchSize len = Z.min 100 (batchSize - len) /\
  getNextLimit batchSize len <= 100 /\
  getNextLimit batchSize len <= batchSize - len.
Proof.
  intros b l. unfold getNextLimit.
  destruct (100 <? b - l) eqn:E; [apply Z.ltb_lt in E | apply Z.ltb_ge in E]; lia.
Qed.

(** ** Checkpoint store *)

(** C7: [getCheckpoint(fallback)] is the first present value among the
    persisted [checkpointId] and the fallback, else [null]; it is a total
    function of the read result, a missing document included. *)
Theorem getCheckpoint_priority : forall data fallback,
  getCheckpoint data fallback = first_present [doc_checkpointId data; fallback].
Proof.
  intros data fb. unfold getCheckpoint, doc_checkpointId.
  destruct data as [d|]; [destruct (get_prop d "checkpointId") as [v|]|];
    try destruct v as [|[]|[]|[]| |];
    destruct fb as [w|]; try destruct w as [|[]|[]|[]| |];
    reflexivity.
Qed.

(** C6 (code_bug): when the document store holds no document ([read()]
    resolves to [undefined]), [done(status, checkpoint)] rejects instead of
    creating the document. *)
Theorem done_rejects_missing_document : forall stg status checkpoint,
  done stg None status checkpoint = None.
Proof. reflexivity. Qed.

(** C3: on a stored document whose [logs] is a sequence (or absent),
    [done(status, checkpoint)] drops the five oldest entries
    ([splice(0, 5)]) exactly when the serialised document is at least
    [limit * 1024] bytes ([limit] defaulting to 400) and [logs] is
    non-empty; then it appends [status] with [status.checkpoint] set, sets
    [checkpointId], and writes the document with its other fields
    unchanged. *)
Theorem done_trims_then_appends : forall lim d status checkpoint logs,
  logs_of d = Some logs ->
  exists d' status',
    done (Auth0Storage_new lim) (Some d) status checkpoint = Some (d', status') /\
    status' = set_prop "checkpoint" checkpoint status /\
    get_prop d' "logs" =
      Some (JArr ((if ((match lim with None => 400 | Some l => l end) * 1024 <=? byteLength_json d)
                      && (0 <? List.length logs)%nat
                   then skipn 5 logs else logs) ++ [JObj status'])%list) /\
    get_prop d' "checkpointId" = Some checkpoint /\
    (forall k, k <> "logs" -> k <> "checkpointId" -> get_prop d' k = get_prop d k).
Proof.
  intros lim d status cp logs H. unfold logs_of in H. unfold done.
  destruct (truthy (get_prop d "logs")) eqn:T.
  - destruct (get_prop d "logs") as [[| | | |l|]|] eqn:G; try discriminate.
    injection H as <-. cbv beta iota zeta.
    eexists; eexists; split; [reflexivity|].
    split; [reflexivity|]. split.
    + rewrite get_set_other by discriminate. rewrite get_set_same.
      destruct (Nat.eqb (List.length l) 0) eqn:E; destruct (List.length l); try discriminate; reflexivity.
    + split; [apply get_set_same|].
      intros k Hl Hc. rewrite get_set_other by congruence. rewrite get_set_other by congruence.
      reflexivity.
  - injection H as <-. rewrite get_set_same. cbv beta iota zeta.
    eexists; eexists; split; [reflexivity|].
    split; [reflexivity|]. split.
    + rewrite get_set_other by discriminate. rewrite get_set_same.
      destruct (_ <=? _); reflexivity.
    + split; [apply get_set_same|].
      intros k Hl Hc. rewrite !get_set_other by congruence. reflexivity.
Qed.

(** Witness for C3: a 16-entry history in a document over a 1 KiB limit
    loses its five oldest entries. *)
Lemma done_trims_then_appends_witness :
  logs_of [("checkpointId", JStr "c0"); ("logs", JArr (repeat (JObj [("logsProcessed", JNum 100)]) 16))]
    = Some (repeat (JObj [("logsProcessed", JNum 100)]) 16) /\
  exists d' status',
    done (Auth0Storage_new (Some 0)) (Some [("checkpointId", JStr "c0"); ("logs", JArr (repeat (JObj [("logsProcessed", JNum 100)]) 16))])
      [("logsProcessed", JNum 7)] (JStr "c1") = Some (d', status') /\
    status' = set_prop "checkpoint" (JStr "c1") [("logsProcessed", JNum 7)] /\
    get_prop d' "logs" =
      Some (JArr ((if ((match Some 0 with None => 400 | Some l => l end) * 1024 <=?
                        byteLength_json [("checkpointId", JStr "c0"); ("logs", JArr (repeat (JObj [("logsProcessed", JNum 100)]) 16))])
                      && (0 <? List.length (repeat (JObj [("logsProcessed", JNum 100)]) 16))%nat
                   then skipn 5 (repeat (JObj [("logsProcessed", JNum 100)]) 16)
                   else repeat (JObj [("logsProcessed", JNum 100)]) 16) ++ [JObj status'])%list) /\
    get_prop d' "checkpointId" = Some (JStr "c1") /\
    (forall k, k <> "logs" -> k <> "checkpointId" ->
       get_prop d' k = get_prop [("checkpointId", JStr "c0"); ("logs", JArr (repeat (JObj [("logsProcessed", JNum 100)]) 16))] k).
Proof.
  split; [reflexivity|].
  apply (done_trims_then_appends (Some 0)). reflexivity.
Defined.

(** ** Retries and the time budget *)

(** A stream snapshot used by the concrete runs below. *)
Definition sample_stream : stream_view :=
  {| stream_status := [("logsProcessed", JNum 100)];
     previousCheckpoint := JStr "p"; lastCheckpoint := JStr "l" |}.

(** C4, counterexample: the retry counter belongs to the run.  With
    [maxRetries = 5], a first batch that fails once and is then accepted
    leaves the counter at 1; a second batch the handler always rejects is
    then redelivered only 4 times (5 deliveries) before the run gives up,
    not 5 times. *)
Lemma retry_budget_shared_across_batches :
  let first := deliver (Auth0Storage_new None) 5 20 0 sample_stream [JNum 1] (Some [])
                 [(Some (JStr "e"), 0); (None, 0)] 0 in
  let counter := match outcome first with BatchAccepted r => r | _ => 0 end in
  let second := deliver (Auth0Storage_new None) 5 20 0 sample_stream [JNum 2] (Some [])
                  (repeat (Some (JStr "e"), 0) 10) counter in
  outcome first = BatchAccepted 1 /\
  snd (data_batch_accepted 20 0 100 0) = BatchSavedNext 100 /\
  (exists r, outcome second = RunConcluded r) /\
  List.length (deliveries second) = 5%nat /\
  deliveries second <> repeat [JNum 2] (1 + 5).
Proof. vm_compute. split; [reflexivity|]. split; [reflexivity|].
  split; [eexists; reflexivity|]. split; [reflexivity|]. discriminate.
Qed.

(** C4 (amended): while time remains, a batch the handler rejects at every
    delivery is handed over again, unchanged, once per remaining unit of the
    run's retry budget ([maxRetries - retries], where [retries] counts the
    retries already spent in the run: [maxRetries] redeliveries when none
    were spent), then the run fails with the skip-range error naming
    [previousCheckpoint] and [lastCheckpoint], persisting [lastCheckpoint]. *)
Theorem deliver_exhausts_retries : forall stg maxRetries maxRunTimeSeconds start
    sv batch s prefix err now rest retries,
  0 <= retries <= maxRetries ->
  List.length prefix = Z.to_nat (maxRetries - retries) ->
  Forall (fun a => truthy (fst a) = true /\ hasTimeLeft maxRunTimeSeconds start (snd a) = true) prefix ->
  truthy (Some err) = true ->
  hasTimeLeft maxRunTimeSeconds start now = true ->
  deliver stg maxRetries maxRunTimeSeconds start sv batch s (prefix ++ (Some err, now) :: rest) retries =
  {| deliveries := repeat batch (List.length prefix + 1);
     final_store := fst (runFailed stg (skip_error (previousCheckpoint sv) (lastCheckpoint sv) maxRetries err)
                                   (stream_status sv) (lastCheckpoint sv) s);
     outcome := RunConcluded (snd (runFailed stg (skip_error (previousCheckpoint sv) (lastCheckpoint sv) maxRetries err)
                                   (stream_status sv) (lastCheckpoint sv) s)) |}.
Proof.
  intros stg mr mt st sv batch s prefix err now rest.
  induction prefix as [|[arg t] prefix IH]; intros r Hr Hlen Hall Herr Hnow.
  - simpl in Hlen. cbn [deliver app]. rewrite Herr. cbn [negb].
    unfold retryProcess. rewrite Hnow. cbn [negb].
    assert (E : (r <? mr) = false) by (apply Z.ltb_ge; lia). rewrite E.
    destruct (runFailed _ _ _ _ _); reflexivity.
  - inversion Hall as [|? ? [Harg Ht] Hall']; subst. simpl in Harg, Ht.
    simpl in Hlen.
    cbn [deliver app]. rewrite Harg. cbn [negb].
    unfold retryProcess at 1. rewrite Ht. cbn [negb].
    assert (E : (r <? mr) = true) by (apply Z.ltb_lt; lia). rewrite E.
    rewrite (IH (r + 1)); try assumption; [reflexivity | lia | lia].
Qed.

(** Witness for C4: [maxRetries = 5], nothing spent yet, six rejections. *)
Lemma deliver_exhausts_retries_witness :
  deliver (Auth0Storage_new None) 5 20 0 sample_stream [JNum 1] (Some [])
    (repeat (Some (JStr "e"), 0) 5 ++ (Some (JStr "e"), 0) :: []) 0 =
  {| deliveries := repeat [JNum 1] (List.length (repeat (Some (JStr "e"), 0) 5) + 1);
     final_store := fst (runFailed (Auth0Storage_new None)
                           (skip_error (JStr "p") (JStr "l") 5 (JStr "e"))
                           (stream_status sample_stream) (JStr "l") (Some []));
     outcome := RunConcluded (snd (runFailed (Auth0Storage_new None)
                           (skip_error (JStr "p") (JStr "l") 5 (JStr "e"))
                           (stream_status sample_stream) (JStr "l") (Some []))) |}.
Proof.
  apply (deliver_exhausts_retries (Auth0Storage_new None) 5 20 0 sample_stream [JNum 1] (Some [])
           (repeat (Some (JStr "e"), 0) 5) (JStr "e") 0 [] 0).
  - lia.
  - reflexivity.
  - repeat constructor.
  - reflexivity.
  - reflexivity.
Defined.

(** C5: a rejection reported once the budget is spent
    ([(start + maxRunTimeSeconds) * 1000 < now]) ends the run at once at
    [previousCheckpoint] with the handler's error, whatever the retry
    counter: the batch is not delivered again. *)
Theorem deliver_time_up_fails_at_previous : forall stg maxRetries maxRunTimeSeconds start
    sv batch s err now rest retries,
  truthy (Some err) = true ->
  hasTimeLeft maxRunTimeSeconds start now = false ->
  deliver stg maxRetries maxRunTimeSeconds start sv batch s ((Some err, now) :: rest) retries =
  {| deliveries := [batch];
     final_store := fst (runFailed stg err (stream_status sv) (previousCheckpoint sv) s);
     outcome := RunConcluded (snd (runFailed stg err (stream_status sv) (previousCheckpoint sv) s)) |}.
Proof.
  intros stg mr mt st sv batch s err now rest r Herr Hnow.
  cbn [deliver]. rewrite Herr. cbn [negb]. unfold retryProcess. rewrite Hnow. cbn [negb].
  destruct (runFailed _ _ _ _ _); reflexivity.
Qed.

(** Witness for C5: a 20 s budget from [start = 0] is spent at
    [now = 20001]; no retry has been used. *)
Lemma deliver_time_up_fails_at_previous_witness :
  truthy (Some (JStr "e")) = true /\
  hasTimeLeft 20 0 20001 = false /\
  deliver (Auth0Storage_new None) 5 20 0 sample_stream [JNum 1] (Some [])
    ((Some (JStr "e"), 20001) :: []) 0 =
  {| deliveries := [[JNum 1]];
     final_store := fst (runFailed (Auth0Storage_new None) (JStr "e") (stream_status sample_stream)
                           (previousCheckpoint sample_stream) (Some []));
     outcome := RunConcluded (snd (runFailed (Auth0Storage_new None) (JStr "e") (stream_status sample_stream)
                           (previousCheckpoint sample_stream) (Some []))) |}.
Proof.
  split; [reflexivity|]. split; [reflexivity|].
  apply deliver_time_up_fails_at_previous; reflexivity.
Defined.

(** ** Run conclusion *)

(** C8: a successful run with [status.logsProcessed = 0] resolves with
    [{status, checkpoint}] and leaves the document store as it was. *)
Theorem runSuccess_no_logs_no_persist : forall date_string stg status checkpoint lastLogDate now s,
  get_prop status "logsProcessed" = Some (JNum 0) ->
  runSuccess date_string stg status checkpoint lastLogDate now s = (s, Resolved status checkpoint).
Proof.
  intros ds stg status cp lld now s H.
  unfold runSuccess, logsProcessed_pos. rewrite H. reflexivity.
Qed.

(** Witness for C8. *)
Lemma runSuccess_no_logs_no_persist_witness :
  get_prop [("logsProcessed", JNum 0)] "logsProcessed" = Some (JNum 0) /\
  runSuccess (fun _ => "date") (Auth0Storage_new None) [("logsProcessed", JNum 0)] (JStr "c")
    0 1000 (Some [("checkpointId", JStr "b")]) =
  (Some [("checkpointId", JStr "b")], Resolved [("logsProcessed", JNum 0)] (JStr "c")).
Proof.
  split; [reflexivity|].
  apply runSuccess_no_logs_no_persist. reflexivity.
Defined.

(** C9, counterexample: a last record exactly 604,800,000 ms (7 days)
    old, not more, already gets the staleness warning. *)
Lemma runSuccess_warns_at_exactly_a_week :
  let r := runSuccess (fun _ => "date") (Auth0Storage_new None) [("logsProcessed", JNum 2)] (JStr "c")
             1000 (1000 + 604800000) (Some []) in
  ~ (1000 + 604800000 - 1000 > 604800000) /\
  exists s' st, r = (s', Resolved st (JStr "c")) /\ get_prop st "warning" <> None.
Proof.
  vm_compute. split; [discriminate|].
  eexists; eexists; split; [reflexivity|]. discriminate.
Qed.

(** C9 (amended): a successful run with at least one record processed
    attaches the staleness warning exactly when the last record is at
    least 604,800,000 ms behind [now]; when the checkpoint store accepts
    the write, the run resolves with that status, which is the entry
    appended to the persisted history, under [checkpointId = checkpoint]. *)
Theorem runSuccess_staleness_warning : forall date_string lim d status checkpoint lastLogDate now logs,
  logsProcessed_pos status = true ->
  get_prop status "warning" = None ->
  logs_of d = Some logs ->
  exists d' status',
    runSuccess date_string (Auth0Storage_new lim) status checkpoint lastLogDate now (Some d) =
      (Some d', Resolved status' checkpoint) /\
    (get_prop status' "warning" <> None <-> 604800000 <= now - lastLogDate) /\
    (exists kept, get_prop d' "logs" = Some (JArr (kept ++ [JObj status'])%list)) /\
    get_prop d' "checkpointId" = Some checkpoint.
Proof.
  intros ds lim d status cp lld now logs Hpos Hw Hlogs.
  unfold runSuccess. rewrite Hpos.
  set (status1 := if week <=? now - lld
                  then set_prop "warning" (JStr (warning_prefix ++ ds lld)) status else status).
  destruct (done_trims_then_appends lim d status1 cp logs Hlogs)
    as (d' & st' & Hdone & Hst & Hl & Hc & _).
  rewrite Hdone. exists d', st'. split; [reflexivity|]. split; [|split; [eexists; exact Hl | exact Hc]].
  subst st'. rewrite get_set_other by discriminate. subst status1. unfold week.
  destruct (604800000 <=? now - lld) eqn:E.
  - apply Z.leb_le in E. rewrite get_set_same. split; [intros _; exact E | discriminate].
  - apply Z.leb_gt in E. rewrite Hw. split; [intros C; congruence | lia].
Qed.

(** Witness for C9: a last record ten days old. *)
Lemma runSuccess_staleness_warning_witness :
  logsProcessed_pos [("logsProcessed", JNum 2)] = true /\
  get_prop [("logsProcessed", JNum 2)] "warning" = None /\
  logs_of [] = Some [] /\
  exists d' status',
    runSuccess (fun _ => "date") (Auth0Storage_new None) [("logsProcessed", JNum 2)] (JStr "c")
      0 864000000 (Some []) = (Some d', Resolved status' (JStr "c")) /\
    (get_prop status' "warning" <> None <-> 604800000 <= 864000000 - 0) /\
    (exists kept, get_prop d' "logs" = Some (JArr (kept ++ [JObj status'])%list)) /\
    get_prop d' "checkpointId" = Some (JStr "c").
Proof.
  split; [reflexivity|]. split; [reflexivity|]. split; [reflexivity|].
  apply (runSuccess_staleness_warning (fun _ => "date") None [] [("logsProcessed", JNum 2)] (JStr "c") 0 864000000 []);
    reflexivity.
Defined.

(** * Further properties of the code *)

(** ** Checkpoint store *)

(** [done] on a document whose history is a sequence (or absent), for any
    size limit: the appended entry is [status] with its checkpoint set, the
    document's [checkpointId] is the checkpoint, other fields unchanged. *)
Lemma done_ok : forall stg d status cp logs,
  logs_of d = Some logs ->
  exists d',
    done stg (Some d) status cp = Some (d', set_prop "checkpoint" cp status) /\
    (exists kept, get_prop d' "logs" = Some (JArr (kept ++ [JObj (set_prop "checkpoint" cp status)])%list)) /\
    get_prop d' "checkpointId" = Some cp /\
    (forall k, k <> "logs" -> k <> "checkpointId" -> get_prop d' k = get_prop d k).
Proof.
  intros stg d status cp logs H. unfold logs_of in H. unfold done.
  destruct (truthy (get_prop d "logs")) eqn:T.
  - destruct (get_prop d "logs") as [[| | | |l|]|] eqn:G; try discriminate.
    cbv beta iota zeta.
    eexists; split; [reflexivity|]. split.
    + rewrite get_set_other by discriminate. rewrite get_set_same. eexists; reflexivity.
    + split; [apply get_set_same|].
      intros k Hl Hc. rewrite !get_set_other by congruence. reflexivity.
  - rewrite get_set_same. cbv beta iota zeta.
    eexists; split; [reflexivity|]. split.
    + rewrite get_set_other by discriminate. rewrite get_set_same. eexists; reflexivity.
    + split; [apply get_set_same|].
      intros k Hl Hc. rewrite !get_set_other by congruence. reflexivity.
Qed.

(** Whatever [done] writes records [checkpointId = checkpoint]: a
    following [getCheckpoint] returns that checkpoint (when it is a present
    value), whatever fallback it is given. *)
Theorem getCheckpoint_after_done : forall stg d status cp d' status' fallback,
  done stg (Some d) status cp = Some (d', status') ->
  truthy (Some cp) = true ->
  getCheckpoint (Some d') fallback = cp.
Proof.
  intros stg d status cp d' st' fb H Ht. unfold done in H.
  destruct (get_prop _ "logs") as [[| | | |l|]|]; try discriminate.
  injection H as <- _.
  unfold getCheckpoint, js_or_null, js_or. rewrite get_set_same.
  rewrite Ht. cbv beta iota. rewrite Ht. reflexivity.
Qed.

Lemma getCheckpoint_after_done_witness :
  done (Auth0Storage_new None) (Some []) [("logsProcessed", JNum 1)] (JStr "c1") =
    Some ([("logs", JArr [JObj [("logsProcessed", JNum 1); ("checkpoint", JStr "c1")]]); ("checkpointId", JStr "c1")],
          [("logsProcessed", JNum 1); ("checkpoint", JStr "c1")]) /\
  truthy (Some (JStr "c1")) = true /\
  getCheckpoint (Some [("logs", JArr [JObj [("logsProcessed", JNum 1); ("checkpoint", JStr "c1")]]); ("checkpointId", JStr "c1")])
    (Some (JStr "start")) = JStr "c1".
Proof.
  split; [reflexivity|]. split; [reflexivity|].
  apply (getCheckpoint_after_done (Auth0Storage_new None) [] [("logsProcessed", JNum 1)] (JStr "c1")
           _ [("logsProcessed", JNum 1); ("checkpoint", JStr "c1")]); reflexivity.
Defined.

(** A stored history that is present but not an array (a string, a
    number, an object) makes [done] reject: [splice]/[push] are not
    functions there. *)
Theorem done_rejects_non_array_logs : forall stg d status cp v,
  get_prop d "logs" = Some v ->
  truthy (Some v) = true ->
  (forall l, v <> JArr l) ->
  done stg (Some d) status cp = None.
Proof.
  intros stg d status cp v G T N. unfold done. rewrite G, T. cbv beta iota zeta.
  rewrite G. destruct v; try reflexivity. exfalso. eapply N. reflexivity.
Qed.

Lemma done_rejects_non_array_logs_witness :
  get_prop [("logs", JStr "x")] "logs" = Some (JStr "x") /\
  truthy (Some (JStr "x")) = true /\
  (forall l, JStr "x" <> JArr l) /\
  done (Auth0Storage_new None) (Some [("logs", JStr "x")]) [] JNull = None.
Proof.
  split; [reflexivity|]. split; [reflexivity|].
  assert (N : forall l, JStr "x" <> JArr l) by discriminate.
  split; [exact N|].
  apply (done_rejects_non_array_logs _ _ _ _ (JStr "x")); [reflexivity | reflexivity | exact N].
Defined.

(** [runFailed] on a stored document persists the status with its [error]
    and [checkpoint] set as the newest history entry, moves
    [checkpointId] to the checkpoint, and rejects with the run's error. *)
Theorem runFailed_persists_error : forall stg d err status cp logs,
  logs_of d = Some logs ->
  exists d' status',
    runFailed stg err status cp (Some d) = (Some d', Rejected err) /\
    get_prop status' "error" = Some err /\
    get_prop status' "checkpoint" = Some cp /\
    (exists kept, get_prop d' "logs" = Some (JArr (kept ++ [JObj status'])%list)) /\
    get_prop d' "checkpointId" = Some cp.
Proof.
  intros stg d err status cp logs H.
  destruct (done_ok stg d (set_prop "error" err status) cp logs H) as (d' & Hd & Hl & Hc & _).
  exists d', (set_prop "checkpoint" cp (set_prop "error" err status)).
  unfold runFailed. rewrite Hd. split; [reflexivity|].
  split; [rewrite get_set_other by discriminate; apply get_set_same|].
  split; [apply get_set_same|]. split; assumption.
Qed.

Lemma runFailed_persists_error_witness :
  logs_of [("checkpointId", JStr "c0")] = Some [] /\
  exists d' status',
    runFailed (Auth0Storage_new None) (JStr "boom") [("logsProcessed", JNum 3)] (JStr "c0")
      (Some [("checkpointId", JStr "c0")]) = (Some d', Rejected (JStr "boom")) /\
    get_prop status' "error" = Some (JStr "boom") /\
    get_prop status' "checkpoint" = Some (JStr "c0") /\
    (exists kept, get_prop d' "logs" = Some (JArr (kept ++ [JObj status'])%list)) /\
    get_prop d' "checkpointId" = Some (JStr "c0").
Proof.
  split; [reflexivity|].
  apply (runFailed_persists_error _ _ _ _ _ []). reflexivity.
Defined.

(** On a first run (no document stored yet), every conclusion that
    persists is rejected by the checkpoint store: a failed run loses its
    own error, and a successful run with records processed does not
    resolve.  Nothing is written. *)
Theorem first_run_conclusions_rejected : forall date_string stg err status cp lastLogDate now,
  runFailed stg err status cp None = (None, StoreFailed) /\
  (logsProcessed_pos status = true ->
   runSuccess date_string stg status cp lastLogDate now None = (None, StoreFailed)).
Proof.
  intros ds stg err status cp lld now. split; [reflexivity|].
  intros H. unfold runSuccess. rewrite H. reflexivity.
Qed.

Lemma first_run_conclusions_rejected_witness :
  runFailed (Auth0Storage_new None) (JStr "e") [("logsProcessed", JNum 4)] (JStr "c") None = (None, StoreFailed) /\
  logsProcessed_pos [("logsProcessed", JNum 4)] = true /\
  runSuccess (fun _ => "date") (Auth0Storage_new None) [("logsProcessed", JNum 4)] (JStr "c") 0 0 None = (None, StoreFailed).
Proof.
  destruct (first_run_conclusions_rejected (fun _ => "date") (Auth0Storage_new None) (JStr "e")
              [("logsProcessed", JNum 4)] (JStr "c") 0 0) as [H1 H2].
  split; [exact H1|]. split; [reflexivity|]. apply H2. reflexivity.
Defined.

(** ** Time budget *)

(** [hasTimeLeft] adds a number of seconds to a start time in
    milliseconds before scaling by 1000: for any start time [start >= 0],
    the budget still holds at every clock reading up to [1000 * start], so
    with real timestamps it does not run out during a run. *)
Theorem hasTimeLeft_ms_start : forall maxRunTimeSeconds start now,
  0 <= maxRunTimeSeconds -> 0 <= start -> now <= 1000 * start ->
  hasTimeLeft maxRunTimeSeconds start now = true.
Proof.
  intros mt st now H1 H2 H3. unfold hasTimeLeft. apply Z.leb_le. lia.
Qed.

Lemma hasTimeLeft_ms_start_witness :
  hasTimeLeft 20 1700000000000 (1700000000000 + 3600000) = true.
Proof. apply hasTimeLeft_ms_start; lia. Defined.

(** Once [hasTimeLeft] is false it stays false at every later clock
    reading. *)
Theorem hasTimeLeft_expired_stays : forall maxRunTimeSeconds start now now',
  now <= now' ->
  hasTimeLeft maxRunTimeSeconds start now = false ->
  hasTimeLeft maxRunTimeSeconds start now' = false.
Proof.
  intros mt st now now' Hle H. unfold hasTimeLeft in *.
  apply Z.leb_gt in H. apply Z.leb_gt. lia.
Qed.

Lemma hasTimeLeft_expired_stays_witness :
  hasTimeLeft 20 0 30000 = false /\ hasTimeLeft 20 0 45000 = false.
Proof.
  split; [reflexivity|]. apply (hasTimeLeft_expired_stays 20 0 30000); [lia | reflexivity].
Defined.

(** ** Delivering one batch *)

Lemma retryProcess_redeliver : forall mr mt st now r err sv r',
  retryProcess mr mt st now r err sv = RetryRedeliver r' ->
  r' = r + 1 /\ r < mr.
Proof.
  intros mr mt st now r err sv r' H. unfold retryProcess in H.
  destruct (negb _); [discriminate|].
  destruct (r <? mr) eqn:E; [|discriminate].
  injection H as <-. apply Z.ltb_lt in E. split; [reflexivity | exact E].
Qed.

(** Every delivery of a batch, first or retried, hands the handler that
    same batch, and the handler sees it at least once. *)
Theorem deliver_same_batch : forall stg mr mt st sv batch s answers retries,
  Forall (eq batch) (deliveries (deliver stg mr mt st sv batch s answers retries)) /\
  deliveries (deliver stg mr mt st sv batch s answers retries) <> [].
Proof.
  intros stg mr mt st sv batch s answers.
  induction answers as [|[arg t] rest IH]; intros r; cbn [deliver].
  - split; [repeat constructor | discriminate].
  - destruct (negb (truthy arg)); [cbn; split; [repeat constructor | discriminate]|].
    destruct (retryProcess _ _ _ _ _ _ _) as [r'|e cp].
    + cbn [deliveries]. split; [constructor; [reflexivity | apply IH] | discriminate].
    + destruct (runFailed _ _ _ _ _). cbn. split; [repeat constructor | discriminate].
Qed.

(** The run's retry counter only grows while a batch is delivered, and
    never past [maxRetries] (when it starts below): if the handler ends up
    accepting the batch, or has not answered yet, the counter is between
    its value at the first delivery and [max(that value, maxRetries)]. *)
Theorem deliver_counter_bounds : forall stg mr mt st sv batch s answers r0 r,
  (outcome (deliver stg mr mt st sv batch s answers r0) = BatchAccepted r \/
   outcome (deliver stg mr mt st sv batch s answers r0) = BatchPending r) ->
  r0 <= r <= Z.max r0 mr.
Proof.
  intros stg mr mt st sv batch s answers.
  induction answers as [|[arg t] rest IH]; intros r0 r H; cbn [deliver] in H.
  - destruct H as [H|H]; cbn in H; [discriminate|]. injection H as <-. lia.
  - destruct (negb (truthy arg)).
    + destruct H as [H|H]; cbn in H; [|discriminate]. injection H as <-. lia.
    + destruct (retryProcess _ _ _ _ _ _ _) as [r'|e cp] eqn:E.
      * apply retryProcess_redeliver in E as [-> Hlt]. cbn [outcome] in H.
        apply IH in H. rewrite Z.max_r in H by lia. lia.
      * destruct (runFailed _ _ _ _ _). destruct H as [H|H]; cbn in H; discriminate.
Qed.

Lemma deliver_counter_bounds_witness :
  outcome (deliver (Auth0Storage_new None) 5 20 0 sample_stream [JNum 1] (Some [])
             [(Some (JStr "e"), 0); (Some (JStr "e"), 0); (None, 0)] 1) = BatchAccepted 3 /\
  1 <= 3 <= Z.max 1 5.
Proof.
  split; [reflexivity|].
  apply (deliver_counter_bounds (Auth0Storage_new None) 5 20 0 sample_stream [JNum 1] (Some [])
           [(Some (JStr "e"), 0); (Some (JStr "e"), 0); (None, 0)]).
  left. reflexivity.
Defined.

(** The checkpoint store is written only when the run concludes: while a
    batch is being delivered and retried, and once the handler accepts
    it, the store is as it was. *)
Theorem deliver_store_untouched : forall stg mr mt st sv batch s answers r0 r,
  (outcome (deliver stg mr mt st sv batch s answers r0) = BatchAccepted r \/
   outcome (deliver stg mr mt st sv batch s answers r0) = BatchPending r) ->
  final_store (deliver stg mr mt st sv batch s answers r0) = s.
Proof.
  intros stg mr mt st sv batch s answers.
  induction answers as [|[arg t] rest IH]; intros r0 r H; cbn [deliver] in *.
  - reflexivity.
  - destruct (negb (truthy arg)); [reflexivity|].
    destruct (retryProcess _ _ _ _ _ _ _) as [r'|e cp].
    + cbn [final_store outcome] in *. eapply IH. exact H.
    + destruct (runFailed _ _ _ _ _). destruct H as [H|H]; cbn in H; discriminate.
Qed.

Lemma deliver_store_untouched_witness :
  outcome (deliver (Auth0Storage_new None) 5 20 0 sample_stream [JNum 1] (Some [("checkpointId", JStr "a")])
             [(Some (JStr "e"), 0); (None, 0)] 0) = BatchAccepted 1 /\
  final_store (deliver (Auth0Storage_new None) 5 20 0 sample_stream [JNum 1] (Some [("checkpointId", JStr "a")])
             [(Some (JStr "e"), 0); (None, 0)] 0) = Some [("checkpointId", JStr "a")].
Proof.
  split; [reflexivity|].
  apply (deliver_store_untouched _ _ _ _ _ _ _ _ 0 1). left. reflexivity.
Defined.

(** A handler that rejects a batch [k] times while time remains and the
    run's retry budget allows [k] more retries, then accepts it, sees the
    batch [k + 1] times; the counter ends [k] higher and the store is not
    touched. *)
Theorem deliver_accepts_after_failures : forall stg mr mt st sv batch s prefix arg t rest r0,
  Z.of_nat (List.length prefix) <= mr - r0 ->
  Forall (fun a => truthy (fst a) = true /\ hasTimeLeft mt st (snd a) = true) prefix ->
  truthy arg = false ->
  deliver stg mr mt st sv batch s (prefix ++ (arg, t) :: rest) r0 =
  {| deliveries := repeat batch (List.length prefix + 1); final_store := s;
     outcome := BatchAccepted (r0 + Z.of_nat (List.length prefix)) |}.
Proof.
  intros stg mr mt st sv batch s prefix arg t rest.
  induction prefix as [|[a ta] prefix IH]; intros r0 Hlen Hall Harg.
  - cbn [deliver app]. rewrite Harg. cbn. rewrite Z.add_0_r. reflexivity.
  - inversion Hall as [|? ? [Ha Ht] Hall']; subst. cbn [fst snd] in Ha, Ht.
    cbn [List.length] in Hlen.
    cbn [deliver app]. rewrite Ha. cbn [negb].
    unfold retryProcess at 1. rewrite Ht. cbn [negb].
    assert (E : (r0 <? mr) = true) by (apply Z.ltb_lt; lia). rewrite E.
    rewrite (IH (r0 + 1)); [| lia | assumption | assumption].
    cbn. f_equal. f_equal. lia.
Qed.

Lemma deliver_accepts_after_failures_witness :
  deliver (Auth0Storage_new None) 5 20 0 sample_stream [JNum 1] (Some [])
    ([(Some (JStr "e"), 0); (Some (JStr "e"), 0)] ++ (None, 0) :: []) 0 =
  {| deliveries := repeat [JNum 1] (List.length [(Some (JStr "e"), 0); (Some (JStr "e"), 0)] + 1);
     final_store := Some [];
     outcome := BatchAccepted (0 + Z.of_nat (List.length [(Some (JStr "e"), 0); (Some (JStr "e"), 0)])) |}.
Proof.
  apply deliver_accepts_after_failures.
  - cbn. lia.
  - repeat constructor.
  - reflexivity.
Defined.

(** ** Accumulating pages *)

Lemma getNextLimit_room : forall bs n, getNextLimit bs n <= bs - n.
Proof.
  intros bs n. unfold getNextLimit.
  destruct (100 <? bs - n) eqn:E; [apply Z.ltb_lt in E | apply Z.ltb_ge in E]; lia.
Qed.

Lemma getNextLimit_range : forall bs n,
  n < bs -> 1 <= getNextLimit bs n <= 100 /\ n + getNextLimit bs n <= bs.
Proof.
  intros bs n H. unfold getNextLimit.
  destruct (100 <? bs - n) eqn:E; [apply Z.ltb_lt in E | apply Z.ltb_ge in E]; lia.
Qed.

(** When each page holds no more records than the limit last requested
    ([getNextLimit]), the data handler keeps the batch within [batchSize]:
    it hands the batch over exactly when it has reached [batchSize]
    records, and otherwise requests between 1 and 100 records, no more than
    the room left. *)
Theorem on_data_batch_bounded : forall parse_date batchSize logsBatch lastLogDate logs
    logsBatch' lastLogDate' step,
  Z.of_nat (List.length logsBatch) < batchSize ->
  Z.of_nat (List.length logs) <= getNextLimit batchSize (Z.of_nat (List.length logsBatch)) ->
  on_data parse_date batchSize logsBatch lastLogDate logs = (logsBatch', lastLogDate', step) ->
  Z.of_nat (List.length logsBatch') <= batchSize /\
  (step = DeliverBatch <-> Z.of_nat (List.length logsBatch') = batchSize) /\
  (forall limit, step = RequestNext limit ->
     1 <= limit <= 100 /\ Z.of_nat (List.length logsBatch') + limit <= batchSize).
Proof.
  intros pd bs b lld logs b' lld' step Hb Hl H. unfold jobj in *.
  unfold on_data in H. injection H as Hb' _ Hstep. subst b' step.
  rewrite length_app, length_map in *. rewrite Nat2Z.inj_add in *.
  pose proof (getNextLimit_room bs (Z.of_nat (List.length b))) as R.
  assert (Hlen : Z.of_nat (List.length b) + Z.of_nat (List.length logs) <= bs) by lia.
  split; [exact Hlen|].
  destruct (_ + _ <? bs) eqn:E.
  - apply Z.ltb_lt in E. split; [split; [intros C; discriminate C | intros C; exfalso; lia]|].
    intros limit Hr. injection Hr as <-. apply getNextLimit_range. exact E.
  - apply Z.ltb_ge in E. split; [split; [intros _; lia | reflexivity]|].
    intros limit Hr. discriminate.
Qed.

Lemma on_data_batch_bounded_witness :
  Z.of_nat (List.length [JNum 1]) < 3 /\
  Z.of_nat (List.length [[("date", JNum 5)]; [("date", JNum 9)]]) <= getNextLimit 3 (Z.of_nat (List.length [JNum 1])) /\
  on_data (fun _ => 0) 3 [JNum 1] 0 [[("date", JNum 5)]; [("date", JNum 9)]] =
    ([JNum 1; JObj [("date", JNum 5)]; JObj [("date", JNum 9)]], 0, DeliverBatch) /\
  Z.of_nat (List.length [JNum 1; JObj [("date", JNum 5)]; JObj [("date", JNum 9)]]) <= 3 /\
  (DeliverBatch = DeliverBatch <-> Z.of_nat (List.length [JNum 1; JObj [("date", JNum 5)]; JObj [("date", JNum 9)]]) = 3) /\
  (forall limit, DeliverBatch = RequestNext limit ->
     1 <= limit <= 100 /\ Z.of_nat (List.length [JNum 1; JObj [("date", JNum 5)]; JObj [("date", JNum 9)]]) + limit <= 3).
Proof.
  split; [cbn; lia|]. split; [vm_compute; discriminate|]. split; [reflexivity|].
  apply (on_data_batch_bounded (fun _ => 0) 3 [JNum 1] 0 [[("date", JNum 5)]; [("date", JNum 9)]]
           _ 0 DeliverBatch).
  - cbn; lia.
  - vm_compute. discriminate.
  - reflexivity.
Defined.

(** ** Stream end and stream error *)






(** ** Log filter *)

Lemma uniq_fold_spec : forall l acc,
  NoDup acc ->
  NoDup (fold_left (fun acc x => if existsb (String.eqb x) acc then acc else (acc ++ [x])%list) l acc) /\
  (forall t, In t (fold_left (fun acc x => if existsb (String.eqb x) acc then acc else (acc ++ [x])%list) l acc)
             <-> In t acc \/ In t l).
Proof.
  induction l as [|a l IH]; intros acc Hnd; cbn [fold_left].
  - split; [exact Hnd|]. intros t. cbn. tauto.
  - destruct (existsb (String.eqb a) acc) eqn:E.
    + apply existsb_exists in E as (x & Hx & Hax). apply String.eqb_eq in Hax. subst x.
      destruct (IH acc Hnd) as [H1 H2]. split; [exact H1|].
      intros t. rewrite H2. cbn. split; [tauto|]. intros [H|[H|H]]; [tauto| subst; tauto | tauto].
    + assert (Hna : ~ In a acc).
      { intros Hin. assert (existsb (String.eqb a) acc = true) by
          (apply existsb_exists; exists a; split; [exact Hin | apply String.eqb_refl]).
        congruence. }
      assert (Hnd' : NoDup (acc ++ [a])%list).
      { apply Permutation_NoDup with (l := a :: acc).
        - apply Permutation_cons_append.
        - constructor; assumption. }
      destruct (IH _ Hnd') as [H1 H2]. split; [exact H1|].
      intros t. rewrite H2, in_app_iff. cbn. tauto.
Qed.

(** [getLogFilter] never repeats a type, keeps every explicitly listed
    type, and adds to them only array-index strings "0", "1", ... (one per
    table entry at or above a non-zero [logLevel]), never a type name taken
    from the table. *)
Theorem getLogFilter_elements : forall logTypes opt_logTypes opt_logLevel t,
  NoDup (getLogFilter logTypes opt_logTypes opt_logLevel) /\
  (In t (getLogFilter logTypes opt_logTypes opt_logLevel) <->
   In t (match opt_logTypes with Some l => l | None => [] end) \/
   exists lvl i, opt_logLevel = Some lvl /\ lvl <> 0 /\
     (i < List.length (lodash_filter_obj logTypes (level_at_least lvl)))%nat /\
     t = Z_to_dec (Z.of_nat i)).
Proof.
  intros tbl lt lv t. unfold getLogFilter, lodash_uniq.
  set (types := match lt with Some l => l | None => [] end).
  destruct lv as [lvl|].
  - destruct (negb (lvl =? 0)) eqn:Z0; cbn [negb] in *.
    + apply negb_true_iff, Z.eqb_neq in Z0.
      destruct (uniq_fold_spec (types ++ lodash_keys_array (lodash_filter_obj tbl (level_at_least lvl)))%list []
                  (NoDup_nil _)) as [H1 H2].
      split; [exact H1|]. rewrite H2, in_app_iff. unfold lodash_keys_array.
      rewrite in_map_iff. split.
      * intros [[]|[H|(i & <- & Hi)]]; [left; exact H|]. apply in_seq in Hi.
        right. exists lvl, i. repeat split; [exact Z0 | lia].
      * intros [H|(l' & i & Hl & Hz & Hi & ->)]; [right; left; exact H|].
        injection Hl as <-. right. right. exists i. split; [reflexivity|]. apply in_seq. lia.
    + apply negb_false_iff, Z.eqb_eq in Z0.
      destruct (uniq_fold_spec types [] (NoDup_nil _)) as [H1 H2].
      split; [exact H1|]. rewrite H2. split.
      * intros [[]|H]. left. exact H.
      * intros [H|(l' & i & Hl & Hz & _)]; [right; exact H|]. injection Hl as <-. contradiction.
  - destruct (uniq_fold_spec types [] (NoDup_nil _)) as [H1 H2].
    split; [exact H1|]. rewrite H2. split.
    + intros [[]|H]. left. exact H.
    + intros [H|(l' & i & Hl & _)]; [right; exact H | discriminate].
Qed.
